(** * A verification model of [slurm_utils.py] and [slurm_sbatch.py]

    Shallow embedding of the combinatorial index engine ([count_product],
    [nth_product]), the parameter-file validation ([validate_param_dict]),
    the sbatch configuration merge ([overrides_to_dict],
    [get_sbatch_config]), the command substitution ([substitute_nth]),
    the array argument ([get_array_argument]), the batch file
    ([make_sbatch_headers], [make_batchfile_contents],
    [write_sbatch_file]) and the two command lines ([slurm_sbatch.main],
    [slurm_utils.main]).

    Python exceptions are modelled by the result type [res]; warnings
    raised through [warnings.warn] are modelled as an output log. *)

From Stdlib Require Import List ZArith Lia Bool Ascii String.
From Stdlib Require Import Numbers.DecimalString.
Import ListNotations.
Set Warnings "-register-all".
Open Scope Z_scope.

(* ------------------------------------------------------------------ *)
(** ** Exceptions and results *)

Inductive exn : Type :=
| IndexError
| ZeroDivisionError
| KeyError (key : string)
| ValueError (msg : string).

Inductive res (T : Type) : Type :=
| Ok (x : T)
| Raise (e : exn).

Arguments Ok {T} x.
Arguments Raise {T} e.

Definition res_bind {T U : Type} (m : res T) (k : T -> res U) : res U :=
  match m with
  | Ok x => k x
  | Raise e => Raise e
  end.

Notation "x <- m ;; k" := (res_bind m (fun x => k))
  (at level 61, m at next level, right associativity).

(* ------------------------------------------------------------------ *)
(** ** Combinatorial index engine *)

Section IndexEngine.

Context {A : Type}.

(** [len(l)] as a Python int. *)
Definition zlen (l : list A) : Z := Z.of_nat (List.length l).

(** [count_product(lists)]:
    [lengths = list(map(len, lists))]; [1] if empty, else
    [reduce(mul, lengths)]. *)
Definition count_product (lists : list (list A)) : Z :=
  let lengths := map zlen lists in
  match lengths with
  | [] => 1
  | l0 :: ls => fold_left Z.mul ls l0
  end.

(** The [for pool, length in zip(pools, lengths)] loop of [nth_product]:
    [result.append(pool[index % length]); index //= length]. *)
Fixpoint nth_product_loop (pools : list (list A)) (lengths : list Z)
    (index : Z) (result : list A) : res (list A) :=
  match pools, lengths with
  | pool :: pools', length :: lengths' =>
      if length =? 0 then Raise ZeroDivisionError
      else
        match nth_error pool (Z.to_nat (index mod length)) with
        | Some x => nth_product_loop pools' lengths' (index / length)
                      (result ++ [x])
        | None => Raise IndexError
        end
  | _, _ => Ok result
  end.

(** [nth_product(index, lists)]. *)
Definition nth_product (index : Z) (lists : list (list A)) : res (list A) :=
  let pools := rev lists in
  let lengths := map zlen pools in
  match lengths with
  | [] => Ok []
  | l0 :: ls =>
      let total := fold_left Z.mul ls l0 in
      let index := if index <? 0 then index + total else index in
      if negb ((0 <=? index) && (index <? total)) then Raise IndexError
      else
        match nth_product_loop pools lengths index [] with
        | Ok result => Ok (rev result)
        | Raise e => Raise e
        end
  end.

(** The cartesian product in the order of [itertools.product]: the first
    list is the most significant position, the last varies fastest.  This
    is the reference ordering the docstring of [nth_product] refers to
    ([list(product(...))[index]]); it is not code of the repository. *)
Fixpoint lex_product (lists : list (list A)) : list (list A) :=
  match lists with
  | [] => [[]]
  | l :: ls => flat_map (fun x => map (cons x) (lex_product ls)) l
  end.

(** Product of the lengths, written as a right fold. *)
Definition zprod (lists : list (list A)) : Z :=
  fold_right (fun l acc => zlen l * acc) 1 lists.

End IndexEngine.

(* ------------------------------------------------------------------ *)
(** ** Python dicts (insertion ordered) *)

(** A [dict] with string keys, in insertion order. *)
Definition dict (V : Type) : Type := list (string * V).

Fixpoint dict_get {V : Type} (d : dict V) (k : string) : option V :=
  match d with
  | [] => None
  | (k', v) :: d' => if String.eqb k k' then Some v else dict_get d' k
  end.

(** [d[k] = v]: an existing key keeps its position, a new key goes last. *)
Fixpoint dict_set {V : Type} (d : dict V) (k : string) (v : V) : dict V :=
  match d with
  | [] => [(k, v)]
  | (k', v') :: d' =>
      if String.eqb k k' then (k', v) :: d' else (k', v') :: dict_set d' k v
  end.

(** [d.update(e)]. *)
Definition dict_update {V : Type} (d e : dict V) : dict V :=
  fold_left (fun acc kv => dict_set acc (fst kv) (snd kv)) e d.

(** [dict(items)] and dict comprehensions. *)
Definition dict_from_items {V : Type} (items : list (string * V)) : dict V :=
  dict_update [] items.

(* ------------------------------------------------------------------ *)
(** ** Python values read from a parameter file *)

(** The TOML scalars and arrays the parameter files hold.  A float is
    kept as its shortest repr, which is what [str] prints for it. *)
Inductive pyval : Type :=
| PStr (s : string)
| PInt (z : Z)
| PFloat (repr : string)
| PBool (b : bool)
| PList (xs : list pyval).

Local Open Scope char_scope.

(** [str(int)]. *)
Definition z_str (z : Z) : string := NilEmpty.string_of_int (Z.to_int z).

Definition hex_digit (n : nat) : ascii :=
  if Nat.ltb n 10 then ascii_of_nat (48 + n) else ascii_of_nat (87 + n).

(** One character of [repr(str)], [q] being the chosen quote. *)
Definition repr_char (q c : ascii) : string :=
  let n := nat_of_ascii c in
  if Ascii.eqb c "\" then String "\" (String "\" EmptyString)
  else if Ascii.eqb c q then String "\" (String q EmptyString)
  else if Nat.eqb n 9 then String "\" (String "t" EmptyString)
  else if Nat.eqb n 10 then String "\" (String "n" EmptyString)
  else if Nat.eqb n 13 then String "\" (String "r" EmptyString)
  else if Nat.ltb n 32 || (Nat.leb 127 n && Nat.leb n 160) || Nat.eqb n 173
  then String "\" (String "x" (String (hex_digit (n / 16))
         (String (hex_digit (n mod 16)) EmptyString)))
  else String c EmptyString.

Fixpoint has_char (c : ascii) (s : string) : bool :=
  match s with
  | EmptyString => false
  | String c' s' => Ascii.eqb c c' || has_char c s'
  end.

Fixpoint string_flat_map (f : ascii -> string) (s : string) : string :=
  match s with
  | EmptyString => EmptyString
  | String c s' => (f c ++ string_flat_map f s')%string
  end.

(** [repr(str)] for code points below 256. *)
Definition repr_string (s : string) : string :=
  let dq := ascii_of_nat 34 in
  let q := if has_char "'" s && negb (has_char dq s) then dq else "'" in
  String q (string_flat_map (repr_char q) s ++ String q EmptyString)%string.

Fixpoint py_repr (v : pyval) : string :=
  match v with
  | PStr s => repr_string s
  | PInt z => z_str z
  | PFloat r => r
  | PBool b => if b then "True"%string else "False"%string
  | PList xs =>
      ("[" ++ String.concat ", " (map py_repr xs) ++ "]")%string
  end.

(** [str(v)], which [format(v, '')] returns for these types. *)
Definition py_str (v : pyval) : string :=
  match v with
  | PStr s => s
  | _ => py_repr v
  end.

Local Close Scope char_scope.

(* ------------------------------------------------------------------ *)
(** ** [str.format] and [str.format_map]

    The replacement-field grammar of CPython's string formatter, read
    left to right: literal text with [{{] and [}}] escapes; a field
    [{name!c:spec}] whose name runs up to [}], [:] or [!] (a [[...]]
    part of the name may hold any character); a format spec that counts
    nested braces.  The first part of the name (up to [.] or [[]) is
    looked up in the mapping.  What happens after the lookup when the
    field has attribute or index accessors, a conversion or a non-empty
    format spec depends on the value's type and is left to the parameter
    [format_field]; a bare field is rendered with [str_of], i.e.
    [format(v, '')]. *)

Local Open Scope char_scope.

Inductive fmode : Type :=
| FLit
| FName (name : string)
| FBracket (name : string)
| FConv (name : string)
| FAfterConv (name : string) (conv : ascii)
| FSpec (name : string) (conv : option ascii) (depth : nat) (spec : string).

(** [field_name_split]: the part before the first [.] or [[] and the
    accessors after it. *)
Fixpoint split_first_part (s : string) : string * string :=
  match s with
  | EmptyString => (EmptyString, EmptyString)
  | String c r =>
      if Ascii.eqb c "." || Ascii.eqb c "[" then (EmptyString, s)
      else let (a, b) := split_first_part r in (String c a, b)
  end.

Definition is_digit (c : ascii) : bool :=
  Nat.leb 48 (nat_of_ascii c) && Nat.leb (nat_of_ascii c) 57.

Fixpoint all_digits (s : string) : bool :=
  match s with
  | EmptyString => true
  | String c r => is_digit c && all_digits r
  end.

Definition is_empty (s : string) : bool :=
  match s with EmptyString => true | _ => false end.

Definition res_map {T U : Type} (f : T -> U) (m : res T) : res U :=
  match m with
  | Ok x => Ok (f x)
  | Raise e => Raise e
  end.

Section Formatter.

Context {V : Type}.
Variable str_of : V -> string.
Variable format_field : dict V -> V -> string -> option ascii -> string -> res string.
(** What a positional field ([{}], [{0}]) raises: [ValueError] under
    [format_map], [IndexError] under [format] with no positional
    arguments. *)
Variable positional_error : exn.

Definition render_field (d : dict V) (name : string) (conv : option ascii)
    (spec : string) : res string :=
  let (first, rest) := split_first_part name in
  if is_empty first || all_digits first then Raise positional_error
  else
    match dict_get d first with
    | None => Raise (KeyError first)
    | Some v =>
        match rest, conv, spec with
        | EmptyString, None, EmptyString => Ok (str_of v)
        | _, _, _ => format_field d v rest conv spec
        end
    end.

Definition single_open : exn :=
  ValueError "Single '{' encountered in format string".
Definition single_close : exn :=
  ValueError "Single '}' encountered in format string".
Definition expected_close : exn :=
  ValueError "expected '}' before end of string".
Definition unmatched_spec : exn :=
  ValueError "unmatched '{' in format spec".

Fixpoint fmt_go (d : dict V) (s : string) (m : fmode) : res string :=
  match m with
  | FLit =>
      match s with
      | EmptyString => Ok EmptyString
      | String c r =>
          if Ascii.eqb c "{" then
            match r with
            | EmptyString => Raise single_open
            | String c2 r2 =>
                if Ascii.eqb c2 "{" then res_map (String "{") (fmt_go d r2 FLit)
                else fmt_go d r (FName EmptyString)
            end
          else if Ascii.eqb c "}" then
            match r with
            | EmptyString => Raise single_close
            | String c2 r2 =>
                if Ascii.eqb c2 "}" then res_map (String "}") (fmt_go d r2 FLit)
                else Raise single_close
            end
          else res_map (String c) (fmt_go d r FLit)
      end
  | FName name =>
      match s with
      | EmptyString => Raise expected_close
      | String c r =>
          if Ascii.eqb c "{" then
            Raise (ValueError "unexpected '{' in field name")
          else if Ascii.eqb c "[" then
            fmt_go d r (FBracket (name ++ String c EmptyString))
          else if Ascii.eqb c "}" then
            x <- render_field d name None EmptyString ;;
            res_map (append x) (fmt_go d r FLit)
          else if Ascii.eqb c ":" then fmt_go d r (FSpec name None 0 EmptyString)
          else if Ascii.eqb c "!" then fmt_go d r (FConv name)
          else fmt_go d r (FName (name ++ String c EmptyString))
      end
  | FBracket name =>
      match s with
      | EmptyString => Raise expected_close
      | String c r =>
          if Ascii.eqb c "]" then fmt_go d r (FName (name ++ String c EmptyString))
          else fmt_go d r (FBracket (name ++ String c EmptyString))
      end
  | FConv name =>
      match s with
      | EmptyString =>
          Raise (ValueError "end of string while looking for conversion specifier")
      | String c r => fmt_go d r (FAfterConv name c)
      end
  | FAfterConv name conv =>
      match s with
      | EmptyString => Raise unmatched_spec
      | String c r =>
          if Ascii.eqb c "}" then
            x <- render_field d name (Some conv) EmptyString ;;
            res_map (append x) (fmt_go d r FLit)
          else if Ascii.eqb c ":" then fmt_go d r (FSpec name (Some conv) 0 EmptyString)
          else Raise (ValueError "expected ':' after conversion specifier")
      end
  | FSpec name conv depth spec =>
      match s with
      | EmptyString => Raise unmatched_spec
      | String c r =>
          if Ascii.eqb c "{" then
            fmt_go d r (FSpec name conv (S depth) (spec ++ String c EmptyString))
          else if Ascii.eqb c "}" then
            match depth with
            | O =>
                x <- render_field d name conv spec ;;
                res_map (append x) (fmt_go d r FLit)
            | S k => fmt_go d r (FSpec name conv k (spec ++ String c EmptyString))
            end
          else fmt_go d r (FSpec name conv depth (spec ++ String c EmptyString))
      end
  end.

(** [template.format_map(d)], and [template.format] with keyword arguments only. *)
Definition format_with (d : dict V) (template : string) : res string :=
  fmt_go d template FLit.

End Formatter.

Local Close Scope char_scope.

Definition format_map {V : Type} (str_of : V -> string) format_field
    (d : dict V) (template : string) : res string :=
  format_with str_of format_field
    (ValueError "Format string contains positional fields") d template.

Definition format_kwargs {V : Type} (str_of : V -> string) format_field
    (d : dict V) (template : string) : res string :=
  format_with str_of format_field IndexError d template.

(* ------------------------------------------------------------------ *)
(** ** [validate_param_dict] and [read_paramfile] *)

Section Validate.

Context {K V : Type}.
(** [isinstance(key, str)], giving the string. *)
Variable as_str : K -> option string.
(** [isinstance(val, list)], giving the elements. *)
Variable as_list : V -> option (list V).

(** The two [warnings.warn] calls, carrying the offending entry. *)
Inductive param_warning : Type :=
| InvalidKey (key : K) (val : V)
| InvalidValue (key : K) (val : V).

(** One iteration of the loop over [dict_lists.items()]. *)
Definition validate_step (st : dict (list V) * list param_warning)
    (kv : K * V) : dict (list V) * list param_warning :=
  let (outdict, ws) := st in
  let (key, val) := kv in
  match as_str key with
  | None => (outdict, ws ++ [InvalidKey key val])
  | Some k =>
      match as_list val with
      | None => (outdict, ws ++ [InvalidValue key val])
      | Some l => (dict_set outdict k l, ws)
      end
  end.

(** [validate_param_dict(dict_lists)]: the returned [outdict] and the
    warnings emitted, in order. *)
Definition validate_param_dict (dict_lists : list (K * V))
    : dict (list V) * list param_warning :=
  fold_left validate_step dict_lists ([], []).

End Validate.

Arguments param_warning : clear implicits.

Definition pyval_as_list (v : pyval) : option (list pyval) :=
  match v with PList xs => Some xs | _ => None end.

(** [read_paramfile]: the TOML mapping (string keys) after validation. *)
Definition read_paramfile (toml : list (string * pyval))
    : dict (list pyval) * list (param_warning string pyval) :=
  validate_param_dict Some pyval_as_list toml.

(** [get_count(params)]. *)
Definition get_count {V : Type} (params : dict (list V)) : Z :=
  count_product (map snd params).

(* ------------------------------------------------------------------ *)
(** ** [overrides_to_dict] and [get_sbatch_config] *)

(** [s.split("=", maxsplit=1)] when it has two parts. *)
Fixpoint split_eq_once (s : string) : option (string * string) :=
  match s with
  | EmptyString => None
  | String c r =>
      if Ascii.eqb c "="%char then Some (EmptyString, r)
      else match split_eq_once r with
           | Some (a, b) => Some (String c a, b)
           | None => None
           end
  end.

Inductive sbatch_warning : Type :=
| NotKeyValue (override : string).

Definition overrides_step (st : dict string * list sbatch_warning)
    (override : string) : dict string * list sbatch_warning :=
  let (out, ws) := st in
  match split_eq_once override with
  | None => (out, ws ++ [NotKeyValue override])
  | Some (k, v) => (dict_set out k v, ws)
  end.

Definition overrides_to_dict (overrides : list string)
    : dict string * list sbatch_warning :=
  fold_left overrides_step overrides ([], []).

(** [get_sbatch_config(configfile, overrides)], the file given as its
    TOML mapping; [str_of] is [str] on its values. *)
Definition get_sbatch_config {V : Type} (str_of : V -> string)
    (config_base : list (string * V)) (overrides : option (list string))
    : dict string * list sbatch_warning :=
  let config := dict_from_items (map (fun kv => (fst kv, str_of (snd kv))) config_base) in
  match overrides with
  | None => (config, [])
  | Some ovs =>
      let (overrides_dict, ws) := overrides_to_dict ovs in
      (dict_update config overrides_dict, ws)
  end.

(* ------------------------------------------------------------------ *)
(** ** [substitute_nth] and [get_array_argument] *)

(** [substitute_nth(nth, params, command)]. *)
Definition substitute_nth {V : Type} (str_of : V -> string) format_field
    (nth : Z) (params : dict (list V)) (command : string) : res string :=
  nth_values <- nth_product nth (map snd params) ;;
  let nth_dict := dict_from_items (combine (map fst params) nth_values) in
  format_map str_of format_field nth_dict command.

(** [get_array_argument(template, paramfile)], the file given as its
    TOML mapping; also returns the warnings of [read_paramfile]. *)
Definition get_array_argument format_field (template : string)
    (toml : list (string * pyval))
    : res string * list (param_warning string pyval) :=
  let (params, ws) := read_paramfile toml in
  let count := get_count params in
  let count := count - 1 in
  (format_kwargs z_str format_field [("count"%string, count)] template, ws).

(* ------------------------------------------------------------------ *)
(** ** Templates as the claims describe them

    A template built from literal text without braces, the escapes [{{]
    and [}}], and bare fields [{name}]; with what the spec says it
    becomes once each field is replaced. *)

Inductive tpiece : Type :=
| TLit (s : string)
| TLBrace
| TRBrace
| TField (name : string).

Local Open Scope char_scope.

Definition render_piece (p : tpiece) : string :=
  match p with
  | TLit s => s
  | TLBrace => String "{" (String "{" EmptyString)
  | TRBrace => String "}" (String "}" EmptyString)
  | TField n => String "{" (n ++ String "}" EmptyString)
  end.

Fixpoint brace_free (s : string) : bool :=
  match s with
  | EmptyString => true
  | String c r => negb (Ascii.eqb c "{") && negb (Ascii.eqb c "}") && brace_free r
  end.

Definition name_char (c : ascii) : bool :=
  negb (has_char c "{}[].:!"%string).

Fixpoint name_chars (s : string) : bool :=
  match s with
  | EmptyString => true
  | String c r => name_char c && name_chars r
  end.

(** A bare keyword field name: non-empty, not a number, and free of the
    characters that end or structure a field. *)
Definition plain_name (n : string) : bool :=
  negb (is_empty n) && negb (all_digits n) && name_chars n.

Local Close Scope char_scope.

Definition render_template (ps : list tpiece) : string :=
  fold_right (fun p acc => (render_piece p ++ acc)%string) EmptyString ps.

Definition piece_ok (p : tpiece) : bool :=
  match p with
  | TLit s => brace_free s
  | TField n => plain_name n
  | _ => true
  end.

Definition wf_template (ps : list tpiece) : bool := forallb piece_ok ps.

(** Replace each field by its value, left to right; the first field
    without a value raises [KeyError]. *)
Fixpoint expand_template (lookup : string -> option string)
    (ps : list tpiece) : res string :=
  match ps with
  | [] => Ok EmptyString
  | TLit s :: ps' => res_map (append s) (expand_template lookup ps')
  | TLBrace :: ps' => res_map (append "{") (expand_template lookup ps')
  | TRBrace :: ps' => res_map (append "}") (expand_template lookup ps')
  | TField n :: ps' =>
      match lookup n with
      | None => Raise (KeyError n)
      | Some x => res_map (append x) (expand_template lookup ps')
      end
  end.

(** Applying one [--sbatch] override directly to a configuration. *)
Definition apply_override (config : dict string) (override : string)
    : dict string :=
  match split_eq_once override with
  | Some (k, v) => dict_set config k v
  | None => config
  end.

(* ------------------------------------------------------------------ *)
(** ** [make_sbatch_headers] and [make_batchfile_contents] *)

Definition nl : string := String (ascii_of_nat 10) EmptyString.
Definition dq : string := String (ascii_of_nat 34) EmptyString.

(** [make_sbatch_headers(config)]: the loop appending one line per
    entry. *)
Definition make_sbatch_headers (config : dict string) : string :=
  fold_left (fun (outstr : string) (kv : string * string) =>
    let (key, val) := kv in
    if Nat.eqb (String.length key) 1%nat
    then (outstr ++ "#SBATCH -" ++ key ++ " " ++ val ++ nl)%string
    else (outstr ++ "#SBATCH --" ++ key ++ "=" ++ val ++ nl)%string)
    config EmptyString.

(** The local variables of [make_batchfile_contents] that [locals()]
    holds: strings, [None] (for an absent [--setup] or [--command]) and
    the configuration dict. *)
Inductive pylocal : Type :=
| LStr (s : string)
| LNone
| LConfig (d : dict string).

(** [str] of a local. *)
Definition local_str (v : pylocal) : string :=
  match v with
  | LStr s => s
  | LNone => "None"
  | LConfig d =>
      ("{" ++ String.concat ", "
         (map (fun kv => repr_string (fst kv) ++ ": " ++ repr_string (snd kv)) d)
       ++ "}")%string
  end.

Definition local_opt (o : option string) : pylocal :=
  match o with Some s => LStr s | None => LNone end.

Definition contents_template : string :=
  ("#!/bin/bash" ++ nl ++ "{sbatch_config}" ++ nl ++ nl ++ "cd {pwd}" ++ nl ++ nl
   ++ "command=$(python3 {slurm_utils_dir}/slurm_utils.py --nth=$SLURM_ARRAY_TASK_ID "
   ++ "          --paramfile={paramfile} --command=" ++ dq ++ "{command}" ++ dq ++ ")"
   ++ nl ++ nl ++ "{setup}" ++ nl ++ nl ++ "$command" ++ nl)%string.

(** [make_batchfile_contents(setup, command, paramfile, config)];
    [os.getcwd()] and [os.path.dirname(__file__)] are the inputs [pwd]
    and [slurm_utils_dir]. *)
Definition make_batchfile_contents format_field (setup command : option string)
    (paramfile : string) (config : dict string) (pwd slurm_utils_dir : string)
    : res string :=
  let sbatch_config := make_sbatch_headers config in
  let locals :=
    [("setup", local_opt setup); ("command", local_opt command);
     ("paramfile", LStr paramfile); ("config", LConfig config);
     ("contents_template", LStr contents_template);
     ("sbatch_config", LStr sbatch_config); ("pwd", LStr pwd);
     ("slurm_utils_dir", LStr slurm_utils_dir)]%string in
  format_map local_str format_field locals contents_template.

(* ------------------------------------------------------------------ *)
(** ** Writing the sbatch file

    The files are a map from names to contents.  The name
    [NamedTemporaryFile] creates is the input [tmpname]. *)




(* ------------------------------------------------------------------ *)
(** ** The command lines: [slurm_sbatch.main] and [slurm_utils.main]

    [read_toml] gives the mapping of each TOML file by name. *)






(* ------------------------------------------------------------------ *)
(** ** Reading the header block back *)

(** [text.split("\n")]. *)
Fixpoint split_nl (s : string) : list string :=
  match s with
  | EmptyString => [EmptyString]
  | String c r =>
      if Ascii.eqb c (ascii_of_nat 10) then EmptyString :: split_nl r
      else match split_nl r with
           | [] => [String c EmptyString]
           | h :: t => String c h :: t
           end
  end.

(** The line [make_sbatch_headers] writes for one entry, without its
    newline. *)
Definition sbatch_header_text (kv : string * string) : string :=
  let (key, val) := kv in
  if Nat.eqb (String.length key) 1%nat then ("#SBATCH -" ++ key ++ " " ++ val)%string
  else ("#SBATCH --" ++ key ++ "=" ++ val)%string.

(* ------------------------------------------------------------------ *)
(** ** Fixtures of [test_slurm_utils.py] *)

(** Stand-in for the formatting of fields with accessors, a conversion
    or a format spec.  The fixtures have no such field, and the theorems
    hold for every such function. *)
Definition no_field_spec {V : Type}
    : dict V -> V -> string -> option ascii -> string -> res string :=
  fun _ _ _ _ _ => Raise (ValueError "field formatting not exercised").

(** [testfiles/params.toml]. *)
Definition params_toml : list (string * pyval) :=
  [("dataset", PList [PStr "SYNTHETIC"]);
   ("imputation", PList [PStr "MICE"; PStr "GAIN"; PStr "Mean"]);
   ("train_percentage", PList [PFloat "0.25"; PFloat "0.5"]);
   ("test_percentage", PList [PFloat "0.5"]);
   ("holdout_set", PList (map PInt [0; 1; 2]));
   ("val_set", PList (map PInt [0; 1; 2; 3; 4]));
   ("repeat", PList (map PInt [0; 1; 2; 3; 4; 5; 6; 7; 8; 9]))]%string.

(** [testfiles/paramsbad.toml]. *)
Definition paramsbad_toml : list (string * pyval) :=
  [("dataset", PList [PStr "SYNTHETIC"]);
   ("imputation", PList [PStr "MICE"; PStr "GAIN"; PStr "Mean"]);
   ("train_percentage", PList [PFloat "0.25"; PFloat "0.5"]);
   ("test_percentage", PList [PFloat "0.5"]);
   ("n_holdout_sets", PInt 3);
   ("n_val_sets", PInt 5);
   ("n_repeats", PInt 10)]%string.

(** [testfiles/sbatch-config.toml]. *)
Definition sbatch_config_toml : list (string * pyval) :=
  [("p", PStr "mynode"); ("A", PStr "MY-ACCOUNT"); ("N", PInt 2);
   ("time", PStr "15:00:00"); ("o", PStr "messages_%a.out")]%string.

(** The command of [test_substitute_nth]. *)
Definition command_pieces : list tpiece :=
  [TLit "python3 myscript.py --dataset="; TField "dataset"; TLit " ";
   TField "imputation"; TLit " "; TField "holdout_set"; TLit " --val=";
   TField "val_set"; TLit " --repeat="; TField "repeat"]%string.

(** The command of [test_substitute_nth_bad]. *)
Definition bad_command_pieces : list tpiece :=
  command_pieces ++ [TLit " --unknown="%string; TField "unknown"%string].





(* ================================================================== *)
(** * Properties *)

(** ** Index engine: arithmetic on lengths *)

Section IndexEngineFacts.

Context {A : Type}.

Lemma fold_left_mul (l : list Z) (a : Z) :
  fold_left Z.mul l a = a * fold_right Z.mul 1 l.
Proof.
  revert a; induction l as [|x l IH]; intros a; simpl.
  - lia.
  - rewrite IH. lia.
Qed.

Lemma zprod_map (lists : list (list A)) :
  fold_right Z.mul 1 (map zlen lists) = zprod lists.
Proof.
  induction lists as [|l ls IH]; simpl; [reflexivity|].
  rewrite IH. reflexivity.
Qed.

Lemma zprod_app (l1 l2 : list (list A)) :
  zprod (l1 ++ l2) = zprod l1 * zprod l2.
Proof.
  induction l1 as [|l l1 IH]; unfold zprod in *; simpl.
  - destruct (fold_right _ 1 l2); reflexivity.
  - rewrite IH. lia.
Qed.

Lemma zprod_rev (lists : list (list A)) : zprod (rev lists) = zprod lists.
Proof.
  induction lists as [|l ls IH]; simpl; [reflexivity|].
  rewrite zprod_app, IH. change (zprod [l]) with (zlen l * 1).
  change (zprod (l :: ls)) with (zlen l * zprod ls). lia.
Qed.

Lemma zprod_nonneg (lists : list (list A)) : 0 <= zprod lists.
Proof.
  induction lists as [|l ls IH]; [unfold zprod; simpl; lia|].
  change (zprod (l :: ls)) with (zlen l * zprod ls). unfold zlen. lia.
Qed.

Lemma count_product_zprod (lists : list (list A)) :
  count_product lists = zprod lists.
Proof.
  unfold count_product.
  destruct lists as [|l ls]; simpl; [reflexivity|].
  rewrite fold_left_mul, zprod_map. reflexivity.
Qed.

(** The [total] computed inside [nth_product], over the reversed pools. *)
Lemma nth_product_total (l0 : Z) (ls : list Z) (lists : list (list A)) :
  map zlen (rev lists) = l0 :: ls ->
  fold_left Z.mul ls l0 = zprod lists.
Proof.
  intros H. rewrite fold_left_mul.
  rewrite <- zprod_rev, <- zprod_map, H. reflexivity.
Qed.

(** ** The reference product *)

Lemma length_flat_map_const {B C : Type} (f : B -> list C) (k : nat)
    (l : list B) :
  (forall x, List.length (f x) = k) ->
  List.length (flat_map f l) = (List.length l * k)%nat.
Proof.
  intros Hlen. induction l as [|x l IH]; simpl; [reflexivity|].
  rewrite length_app, Hlen, IH. reflexivity.
Qed.

Lemma lex_product_length (lists : list (list A)) :
  Z.of_nat (List.length (lex_product lists)) = zprod lists.
Proof.
  induction lists as [|l ls IH]; [reflexivity|].
  change (zprod (l :: ls)) with (zlen l * zprod ls).
  rewrite <- IH. simpl.
  rewrite (length_flat_map_const _ (List.length (lex_product ls)))
    by (intros; apply length_map).
  unfold zlen. lia.
Qed.

Lemma flat_map_app_distr {B C : Type} (f : B -> list C) (l1 l2 : list B) :
  flat_map f (l1 ++ l2) = flat_map f l1 ++ flat_map f l2.
Proof.
  induction l1 as [|x l1 IH]; simpl; [reflexivity|].
  rewrite IH, app_assoc. reflexivity.
Qed.

Lemma flat_map_flat_map {B C D : Type} (f : B -> list C) (g : C -> list D)
    (l : list B) :
  flat_map g (flat_map f l) = flat_map (fun x => flat_map g (f x)) l.
Proof.
  induction l as [|x l IH]; simpl; [reflexivity|].
  rewrite flat_map_app_distr, IH. reflexivity.
Qed.

Lemma map_flat_map {B C D : Type} (f : B -> list C) (g : C -> D)
    (l : list B) :
  map g (flat_map f l) = flat_map (fun x => map g (f x)) l.
Proof.
  induction l as [|x l IH]; simpl; [reflexivity|].
  rewrite map_app, IH. reflexivity.
Qed.

Lemma flat_map_map {B C D : Type} (f : B -> C) (g : C -> list D)
    (l : list B) :
  flat_map g (map f l) = flat_map (fun x => g (f x)) l.
Proof.
  induction l as [|x l IH]; simpl; [reflexivity|].
  rewrite IH. reflexivity.
Qed.

(** Appending a last list to the product: every earlier tuple is
    extended by every element of the new list, the new one varying
    fastest. *)
Lemma lex_product_snoc (ls : list (list A)) (L : list A) :
  lex_product (ls ++ [L]) =
  flat_map (fun t => map (fun x => t ++ [x]) L) (lex_product ls).
Proof.
  induction ls as [|M ls IH]; simpl.
  - induction L as [|x L IHL]; simpl; [reflexivity|].
    rewrite IHL. reflexivity.
  - rewrite IH, flat_map_flat_map.
    apply flat_map_ext. intros y.
    rewrite map_flat_map, flat_map_map.
    apply flat_map_ext. intros t.
    rewrite map_map. reflexivity.
Qed.

Lemma nth_error_flat_map_const {B C : Type} (f : B -> list C) (k : nat)
    (l : list B) (i : nat) :
  (0 < k)%nat ->
  (forall x, List.length (f x) = k) ->
  nth_error (flat_map f l) i =
  match nth_error l (i / k) with
  | Some x => nth_error (f x) (i mod k)
  | None => None
  end.
Proof.
  intros Hk Hlen. revert i.
  induction l as [|x l IH]; intros i; simpl.
  - rewrite !nth_error_nil. reflexivity.
  - destruct (Nat.lt_ge_cases i k) as [Hi|Hi].
    + rewrite nth_error_app1 by (rewrite Hlen; exact Hi).
      rewrite Nat.div_small by exact Hi.
      rewrite Nat.mod_small by exact Hi. reflexivity.
    + rewrite nth_error_app2 by (rewrite Hlen; exact Hi).
      rewrite Hlen, IH.
      assert (Hi' : i = ((i - k) + 1 * k)%nat) by lia.
      assert (Hd : (i / k = S ((i - k) / k))%nat).
      { rewrite Hi' at 1. rewrite Nat.div_add by lia. lia. }
      assert (Hm : (i mod k = (i - k) mod k)%nat).
      { rewrite Hi' at 1. apply Nat.Div0.mod_add. }
      rewrite Hd, Hm. reflexivity.
Qed.

End IndexEngineFacts.

Section DecodeFacts.

Context {A : Type}.

(** The digit loop, run over the reversed pools, reads off the tuple at
    position [index] of the reference product, reversed. *)
Lemma nth_product_loop_spec (lists : list (list A)) :
  forall (i : Z) (acc : list A), 0 <= i < zprod lists ->
  exists t, nth_error (lex_product lists) (Z.to_nat i) = Some t /\
    nth_product_loop (rev lists) (map zlen (rev lists)) i acc
    = Ok (acc ++ rev t).
Proof.
  induction lists as [|L ls IH] using rev_ind; intros i acc Hi.
  - unfold zprod in Hi; simpl in Hi.
    assert (i = 0) by lia. subst i.
    exists []. simpl. rewrite app_nil_r. auto.
  - rewrite zprod_app in Hi. change (zprod [L]) with (zlen L * 1) in Hi.
    pose proof (zprod_nonneg ls) as Hnn.
    assert (HL : 0 < zlen L) by nia.
    rewrite rev_app_distr. cbn [rev app map nth_product_loop].
    rewrite (proj2 (Z.eqb_neq _ _)) by lia.
    assert (Hmod : Z.to_nat (i mod zlen L) = (Z.to_nat i mod List.length L)%nat).
    { rewrite Z2Nat.inj_mod by lia. unfold zlen. rewrite Nat2Z.id. reflexivity. }
    assert (Hdiv : Z.to_nat (i / zlen L) = (Z.to_nat i / List.length L)%nat).
    { rewrite Z2Nat.inj_div by lia. unfold zlen. rewrite Nat2Z.id. reflexivity. }
    assert (HLn : (0 < List.length L)%nat) by (unfold zlen in HL; lia).
    destruct (nth_error L (Z.to_nat (i mod zlen L))) as [x|] eqn:Hx.
    2: { apply nth_error_None in Hx. rewrite Hmod in Hx.
         pose proof (Nat.mod_upper_bound (Z.to_nat i) (List.length L)). lia. }
    destruct (IH (i / zlen L) (acc ++ [x])) as [t [Ht Hloop]].
    { split; [apply Z.div_pos; lia|].
      apply Z.div_lt_upper_bound; lia. }
    exists (t ++ [x]). split.
    + rewrite lex_product_snoc.
      rewrite (nth_error_flat_map_const _ (List.length L)) by
        (try exact HLn; intros; apply length_map).
      rewrite <- Hdiv, Ht, nth_error_map, <- Hmod, Hx. reflexivity.
    + rewrite Hloop, rev_app_distr. simpl. rewrite <- app_assoc. reflexivity.
Qed.

Lemma nth_product_in_range (lists : list (list A)) (i : Z) :
  0 <= i < count_product lists ->
  exists t, nth_error (lex_product lists) (Z.to_nat i) = Some t /\
    nth_product i lists = Ok t.
Proof.
  rewrite count_product_zprod. intros Hi.
  destruct (nth_product_loop_spec lists i [] Hi) as [t [Ht Hl]].
  exists t; split; [exact Ht|].
  unfold nth_product. cbv zeta.
  destruct (map zlen (rev lists)) as [|l0 ls] eqn:Hm.
  - apply map_eq_nil in Hm.
    destruct lists as [|L ls]; [|simpl in Hm; destruct (rev ls); discriminate].
    unfold zprod in Hi; simpl in Hi. assert (i = 0) by lia. subst i.
    simpl in Ht. injection Ht as <-. reflexivity.
  - rewrite (nth_product_total l0 ls lists Hm).
    rewrite (proj2 (Z.ltb_ge i 0)) by lia.
    rewrite (proj2 (Z.leb_le 0 i)), (proj2 (Z.ltb_lt i _)) by lia. simpl.
    rewrite Hl. simpl. rewrite rev_involutive. reflexivity.
Qed.

(** The list is as long as [count_product] says. *)
Lemma count_product_lex_length (lists : list (list A)) :
  Z.to_nat (count_product lists) = List.length (lex_product lists).
Proof.
  rewrite count_product_zprod, <- lex_product_length, Nat2Z.id. reflexivity.
Qed.

End DecodeFacts.

Lemma map_seq_nth_error {B C : Type} (l : list B) :
  forall (f : nat -> C) (g : B -> C),
  (forall i x, nth_error l i = Some x -> f i = g x) ->
  map f (seq 0 (List.length l)) = map g l.
Proof.
  induction l as [|y l IH]; intros f g H; [reflexivity|].
  simpl. f_equal.
  - apply (H 0%nat). reflexivity.
  - rewrite <- seq_shift, map_map.
    apply IH. intros i x Hx. apply (H (S i)). exact Hx.
Qed.

Lemma nth_product_raises_iff {A : Type} (lists : list (list A)) (i : Z) :
  lists <> [] ->
  (nth_product i lists = Raise IndexError <->
   ~ (- count_product lists <= i < count_product lists)).
Proof.
  intros Hne. rewrite count_product_zprod.
  pose proof (zprod_nonneg lists) as Hnn.
  unfold nth_product. cbv zeta.
  destruct (map zlen (rev lists)) as [|l0 ls] eqn:Hm.
  { apply map_eq_nil in Hm. destruct lists as [|L ls]; [congruence|].
    simpl in Hm. destruct (rev ls); discriminate. }
  rewrite (nth_product_total l0 ls lists Hm).
  set (j := if i <? 0 then i + zprod lists else i).
  assert (Hj : (0 <= j < zprod lists) <-> (- zprod lists <= i < zprod lists)).
  { unfold j. destruct (Z.ltb_spec i 0); lia. }
  destruct ((0 <=? j) && (j <? zprod lists)) eqn:Hb; simpl.
  - apply andb_true_iff in Hb. destruct Hb as [H1 H2].
    apply Z.leb_le in H1. apply Z.ltb_lt in H2.
    rewrite <- count_product_zprod in H2.
    destruct (nth_product_loop_spec lists j [] ltac:(rewrite count_product_zprod in H2; lia))
      as [t [_ Hl]].
    rewrite Hm in Hl. rewrite Hl. split; [discriminate|].
    intros Hn. exfalso. apply Hn, Hj. rewrite count_product_zprod in H2. lia.
  - split; [|reflexivity]. intros _ Hin. apply Hj in Hin.
    destruct Hin as [H1 H2].
    apply Z.leb_le in H1. apply Z.ltb_lt in H2. rewrite H1, H2 in Hb. discriminate.
Qed.

(** ** Strings and results *)

Lemma str_append_assoc (s1 s2 s3 : string) :
  ((s1 ++ s2) ++ s3)%string = (s1 ++ (s2 ++ s3))%string.
Proof. induction s1 as [|c s1 IH]; simpl; [reflexivity|]. rewrite IH. reflexivity. Qed.

Lemma str_append_nil (s : string) : (s ++ EmptyString)%string = s.
Proof. induction s as [|c s IH]; simpl; [reflexivity|]. rewrite IH. reflexivity. Qed.

Lemma res_map_map {T U W : Type} (f : U -> W) (g : T -> U) (m : res T) :
  res_map f (res_map g m) = res_map (fun x => f (g x)) m.
Proof. destruct m; reflexivity. Qed.

Lemma res_map_append (s1 s2 : string) (m : res string) :
  res_map (append s1) (res_map (append s2) m) = res_map (append (s1 ++ s2)) m.
Proof.
  rewrite res_map_map. destruct m; simpl; [|reflexivity].
  rewrite str_append_assoc. reflexivity.
Qed.

Lemma split_first_part_name (n : string) :
  name_chars n = true -> split_first_part n = (n, EmptyString).
Proof.
  induction n as [|c n IH]; simpl; [reflexivity|].
  intros H. apply andb_true_iff in H as [Hc Hn].
  unfold name_char in Hc. simpl in Hc.
  destruct (Ascii.eqb c "."%char) eqn:E1;
    [apply Ascii.eqb_eq in E1; subst; discriminate|].
  destruct (Ascii.eqb c "["%char) eqn:E2;
    [apply Ascii.eqb_eq in E2; subst; discriminate|].
  simpl. rewrite IH by exact Hn. reflexivity.
Qed.

(** ** The formatter on well-formed templates *)

Section FormatterFacts.

Context {V : Type}.
Variable str_of : V -> string.
Variable format_field : dict V -> V -> string -> option ascii -> string -> res string.
Variable positional_error : exn.

Let go := fmt_go str_of format_field positional_error.

Lemma fmt_go_brace_free (d : dict V) (s rest : string) :
  brace_free s = true ->
  go d (s ++ rest) FLit = res_map (append s) (go d rest FLit).
Proof.
  induction s as [|c s IH]; intros H; simpl.
  - destruct (go d rest FLit); reflexivity.
  - apply andb_true_iff in H as [H Hs]. apply andb_true_iff in H as [H1 H2].
    apply negb_true_iff in H1, H2.
    unfold go at 1. simpl. rewrite H1, H2. fold go.
    rewrite IH by exact Hs. rewrite res_map_map. reflexivity.
Qed.

Lemma fmt_go_name (d : dict V) (n rest : string) :
  name_chars n = true ->
  forall name,
  go d (n ++ String "}" rest) (FName name) =
  (x <- render_field str_of format_field positional_error d (name ++ n) None EmptyString ;;
   res_map (append x) (go d rest FLit)).
Proof.
  induction n as [|c n IH]; intros H name.
  - rewrite str_append_nil. reflexivity.
  - simpl in H. apply andb_true_iff in H as [Hc Hn].
    unfold name_char in Hc. simpl in Hc.
    destruct (Ascii.eqb c "{"%char) eqn:E1;
      [apply Ascii.eqb_eq in E1; subst; discriminate|].
    destruct (Ascii.eqb c "["%char) eqn:E2;
      [apply Ascii.eqb_eq in E2; subst; discriminate|].
    destruct (Ascii.eqb c "}"%char) eqn:E3;
      [apply Ascii.eqb_eq in E3; subst; discriminate|].
    destruct (Ascii.eqb c ":"%char) eqn:E4;
      [apply Ascii.eqb_eq in E4; subst; discriminate|].
    destruct (Ascii.eqb c "!"%char) eqn:E5;
      [apply Ascii.eqb_eq in E5; subst; discriminate|].
    unfold go at 1. simpl. rewrite E1, E2, E3, E4, E5. fold go.
    rewrite IH by exact Hn. rewrite str_append_assoc. reflexivity.
Qed.

Lemma fmt_go_open (d : dict V) (c : ascii) (n rest : string) :
  Ascii.eqb c "{"%char = false ->
  go d (String "{"%char (String c n ++ rest)) FLit
  = go d (String c n ++ rest) (FName EmptyString).
Proof.
  intros Hc. unfold go. cbn [fmt_go append]. rewrite Hc. reflexivity.
Qed.

Lemma render_field_plain (d : dict V) (n : string) :
  plain_name n = true ->
  render_field str_of format_field positional_error d n None EmptyString =
  match dict_get d n with
  | None => Raise (KeyError n)
  | Some v => Ok (str_of v)
  end.
Proof.
  unfold plain_name. intros H.
  apply andb_true_iff in H as [H Hn]. apply andb_true_iff in H as [He Hd].
  apply negb_true_iff in He, Hd.
  unfold render_field. rewrite split_first_part_name by exact Hn.
  rewrite He, Hd. simpl. destruct (dict_get d n); reflexivity.
Qed.

Lemma fmt_go_piece (d : dict V) (p : tpiece) (rest : string) :
  piece_ok p = true ->
  go d (render_piece p ++ rest) FLit =
  match p with
  | TField n =>
      match dict_get d n with
      | None => Raise (KeyError n)
      | Some v => res_map (append (str_of v)) (go d rest FLit)
      end
  | TLit s => res_map (append s) (go d rest FLit)
  | TLBrace => res_map (append "{") (go d rest FLit)
  | TRBrace => res_map (append "}") (go d rest FLit)
  end.
Proof.
  destruct p as [s| | |n]; intros H.
  - apply fmt_go_brace_free. exact H.
  - simpl. destruct (go d rest FLit); reflexivity.
  - simpl. destruct (go d rest FLit); reflexivity.
  - destruct n as [|c n']; [discriminate|].
    assert (Hn : name_chars (String c n') = true).
    { simpl in H. unfold plain_name in H.
      apply andb_true_iff in H as [_ H]. exact H. }
    assert (Hc : Ascii.eqb c "{"%char = false).
    { simpl in Hn. destruct (Ascii.eqb c "{"%char) eqn:E; [|reflexivity].
      apply Ascii.eqb_eq in E. subst. discriminate. }
    replace (render_piece (TField (String c n')) ++ rest)%string
      with (String "{"%char (String c n' ++ String "}"%char rest))%string
      by (simpl; rewrite str_append_assoc; reflexivity).
    rewrite fmt_go_open by exact Hc.
    rewrite (fmt_go_name d (String c n') rest Hn EmptyString).
    simpl in H. rewrite render_field_plain by exact H.
    cbn [append res_bind]. destruct (dict_get d (String c n')); reflexivity.
Qed.

Lemma format_with_template (d : dict V) (ps : list tpiece) :
  wf_template ps = true ->
  format_with str_of format_field positional_error d (render_template ps)
  = expand_template (fun n => option_map str_of (dict_get d n)) ps.
Proof.
  unfold format_with. fold go.
  induction ps as [|p ps IH]; intros H; [reflexivity|].
  simpl in H. apply andb_true_iff in H as [Hp Hps].
  simpl. rewrite fmt_go_piece by exact Hp. rewrite IH by exact Hps.
  destruct p as [s| | |n]; simpl; try reflexivity.
  destruct (dict_get d n); reflexivity.
Qed.

End FormatterFacts.


(** ** Dicts *)

Section DictFacts.

Context {V : Type}.

Lemma dict_set_absent (d : dict V) (k : string) (v : V) :
  ~ In k (map fst d) -> dict_set d k v = d ++ [(k, v)].
Proof.
  induction d as [|[k' v'] d IH]; simpl; intros H; [reflexivity|].
  destruct (String.eqb_spec k k') as [->|Hne]; [exfalso; auto|].
  rewrite IH by auto. reflexivity.
Qed.

Lemma dict_set_present (d1 d2 : dict V) (k : string) (v0 v : V) :
  ~ In k (map fst d1) ->
  dict_set (d1 ++ (k, v0) :: d2) k v = d1 ++ (k, v) :: d2.
Proof.
  induction d1 as [|[k' v'] d1 IH]; simpl; intros H.
  - rewrite String.eqb_refl. reflexivity.
  - destruct (String.eqb_spec k k') as [->|Hne]; [exfalso; auto|].
    rewrite IH by auto. reflexivity.
Qed.

Lemma dict_set_keys_in (d : dict V) (k k' : string) (v : V) :
  In k' (map fst d) -> In k' (map fst (dict_set d k v)).
Proof.
  induction d as [|[k1 v1] d IH]; simpl; [tauto|].
  destruct (String.eqb k k1); simpl; tauto.
Qed.

Lemma dict_set_key_new (d : dict V) (k : string) (v : V) :
  In k (map fst (dict_set d k v)).
Proof.
  induction d as [|[k1 v1] d IH]; simpl; [auto|].
  destruct (String.eqb_spec k k1) as [->|]; simpl; auto.
Qed.

Lemma dict_set_keys_inv (d : dict V) (k k' : string) (v : V) :
  In k' (map fst (dict_set d k v)) -> k' = k \/ In k' (map fst d).
Proof.
  induction d as [|[k1 v1] d IH]; simpl; [intuition|].
  destruct (String.eqb k k1); simpl; intuition.
Qed.

Lemma dict_set_nodup (d : dict V) (k : string) (v : V) :
  NoDup (map fst d) -> NoDup (map fst (dict_set d k v)).
Proof.
  induction d as [|[k1 v1] d IH]; simpl; intros H.
  - constructor; [auto|constructor].
  - inversion H as [|? ? Hnin Hnd]; subst.
    destruct (String.eqb_spec k k1) as [->|Hne]; simpl.
    + constructor; assumption.
    + constructor; [|auto].
      intros Hin. apply dict_set_keys_inv in Hin as [->|Hin]; auto.
Qed.

Lemma dict_set_overwrite (d : dict V) (k : string) (v0 v : V) :
  dict_set (dict_set d k v0) k v = dict_set d k v.
Proof.
  induction d as [|[k1 v1] d IH]; simpl.
  - rewrite String.eqb_refl. reflexivity.
  - destruct (String.eqb_spec k k1) as [->|Hne]; simpl.
    + rewrite String.eqb_refl. reflexivity.
    + rewrite (proj2 (String.eqb_neq k k1) Hne), IH. reflexivity.
Qed.

(** Setting a key already present commutes with setting another key. *)
Lemma dict_set_comm_present (d : dict V) (k k2 : string) (v v2 : V) :
  k <> k2 -> In k (map fst d) ->
  dict_set (dict_set d k2 v2) k v = dict_set (dict_set d k v) k2 v2.
Proof.
  intros Hne. induction d as [|[k1 v1] d IH]; simpl; [tauto|].
  intros Hin.
  destruct (String.eqb_spec k k1) as [->|Hk];
  destruct (String.eqb_spec k2 k1) as [->|Hk2]; simpl.
  - congruence.
  - rewrite String.eqb_refl, (proj2 (String.eqb_neq k2 k1) Hk2). reflexivity.
  - rewrite String.eqb_refl, (proj2 (String.eqb_neq k k1) Hk). reflexivity.
  - rewrite (proj2 (String.eqb_neq k k1) Hk), (proj2 (String.eqb_neq k2 k1) Hk2).
    rewrite IH; [reflexivity|]. destruct Hin as [Hin|Hin]; [congruence|exact Hin].
Qed.

Lemma dict_update_app (d e1 e2 : dict V) :
  dict_update d (e1 ++ e2) = dict_update (dict_update d e1) e2.
Proof. unfold dict_update. apply fold_left_app. Qed.

Lemma dict_update_keys_in (d e : dict V) (k : string) :
  In k (map fst d) -> In k (map fst (dict_update d e)).
Proof.
  revert d. induction e as [|[k1 v1] e IH]; intros d H; simpl; [exact H|].
  apply IH. apply dict_set_keys_in. exact H.
Qed.

Lemma dict_set_update_commute (e : dict V) :
  forall (D : dict V) (k : string) (v : V),
  ~ In k (map fst e) -> In k (map fst D) ->
  dict_set (dict_update D e) k v = dict_update (dict_set D k v) e.
Proof.
  induction e as [|[k2 v2] e IH]; intros D k v Hnin Hin; simpl; [reflexivity|].
  simpl in Hnin.
  rewrite IH by (try (apply dict_set_keys_in; exact Hin); tauto).
  rewrite dict_set_comm_present by (try exact Hin; intros ->; tauto).
  reflexivity.
Qed.

(** [d.update(e)] for a dict [e] built by [e[k] = v] assignments is the
    same as performing these assignments on [d]. *)
Lemma dict_update_set (d e : dict V) (k : string) (v : V) :
  NoDup (map fst e) ->
  dict_update d (dict_set e k v) = dict_set (dict_update d e) k v.
Proof.
  intros Hnd.
  destruct (in_dec string_dec k (map fst e)) as [Hin|Hnin].
  - apply in_map_iff in Hin as [[k0 v0] [Hk0 Hin]]. simpl in Hk0. subst k0.
    apply in_split in Hin as [e1 [e2 ->]].
    rewrite map_app in Hnd. simpl in Hnd.
    assert (Hn1 : ~ In k (map fst e1)).
    { intros H. apply NoDup_remove_2 in Hnd. apply Hnd. apply in_or_app. auto. }
    assert (Hn2 : ~ In k (map fst e2)).
    { intros H. apply NoDup_remove_2 in Hnd. apply Hnd. apply in_or_app. auto. }
    rewrite dict_set_present by exact Hn1.
    rewrite !dict_update_app. simpl.
    rewrite (dict_set_update_commute e2) by (try exact Hn2; apply dict_set_key_new).
    rewrite dict_set_overwrite. reflexivity.
  - rewrite dict_set_absent by exact Hnin.
    rewrite dict_update_app. reflexivity.
Qed.

Lemma dict_update_fresh (l : dict V) :
  forall d, NoDup (map fst (d ++ l)) -> dict_update d l = d ++ l.
Proof.
  induction l as [|[k v] l IH]; intros d H; simpl.
  - rewrite app_nil_r. reflexivity.
  - rewrite map_app in H. simpl in H.
    rewrite dict_set_absent.
    + rewrite IH, <- app_assoc; [reflexivity|].
      rewrite <- app_assoc. rewrite map_app. exact H.
    + intros Hin. apply NoDup_remove_2 in H. apply H. apply in_or_app. auto.
Qed.

Lemma dict_from_items_nodup (l : dict V) :
  NoDup (map fst l) -> dict_from_items l = l.
Proof. intros H. apply (dict_update_fresh l []). exact H. Qed.

End DictFacts.

Lemma map_fst_combine_in {B C : Type} (ks : list B) (vs : list C) (x : B) :
  In x (map fst (combine ks vs)) -> In x ks.
Proof.
  intros H. apply in_map_iff in H as [[k v] [<- Hin]].
  apply in_combine_l in Hin. exact Hin.
Qed.

Lemma nodup_combine {B C : Type} (ks : list B) (vs : list C) :
  NoDup ks -> NoDup (map fst (combine ks vs)).
Proof.
  revert vs. induction ks as [|k ks IH]; intros vs H; simpl; [constructor|].
  destruct vs as [|v vs]; simpl; [constructor|].
  inversion H; subst. constructor; [|auto].
  intros Hin. apply map_fst_combine_in in Hin. contradiction.
Qed.


(** ** Parameter validation *)

Section ValidateFacts.

Context {K V : Type}.
Variable as_str : K -> option string.
Variable as_list : V -> option (list V).

Let accepted (kv : K * V) : list (string * list V) :=
  match as_str (fst kv), as_list (snd kv) with
  | Some k, Some l => [(k, l)]
  | _, _ => []
  end.

Let rejected (kv : K * V) : list (param_warning K V) :=
  match as_str (fst kv) with
  | None => [InvalidKey (fst kv) (snd kv)]
  | Some _ =>
      match as_list (snd kv) with
      | None => [InvalidValue (fst kv) (snd kv)]
      | Some _ => []
      end
  end.

Lemma validate_fold (l : list (K * V)) :
  forall out ws,
  NoDup (map fst (out ++ flat_map accepted l)) ->
  fold_left (validate_step as_str as_list) l (out, ws)
  = (out ++ flat_map accepted l, ws ++ flat_map rejected l).
Proof.
  induction l as [|[key val] l IH]; intros out ws Hnd; simpl.
  - rewrite !app_nil_r. reflexivity.
  - cbn [flat_map] in *.
    assert (Ha : accepted (key, val) =
      match as_str key, as_list val with
      | Some k, Some l => [(k, l)] | _, _ => [] end) by reflexivity.
    assert (Hr : rejected (key, val) =
      match as_str key with
      | None => [InvalidKey key val]
      | Some _ => match as_list val with
                  | None => [InvalidValue key val] | Some _ => [] end
      end) by reflexivity.
    rewrite Ha, Hr in *.
    destruct (as_str key) as [k|]; [destruct (as_list val) as [xs|]|].
    + simpl in Hnd. rewrite dict_set_absent.
      * rewrite IH.
        -- rewrite <- !app_assoc. reflexivity.
        -- rewrite <- app_assoc. exact Hnd.
      * rewrite map_app in Hnd. simpl in Hnd.
        intros Hin. apply NoDup_remove_2 in Hnd. apply Hnd. apply in_or_app. auto.
    + rewrite IH by exact Hnd. rewrite <- app_assoc. reflexivity.
    + rewrite IH by exact Hnd. rewrite <- app_assoc. reflexivity.
Qed.

End ValidateFacts.

(** ** Overrides *)

Lemma split_eq_once_some (o k v : string) :
  split_eq_once o = Some (k, v) ->
  o = (k ++ String "="%char v)%string /\ has_char "="%char k = false.
Proof.
  revert k v. induction o as [|c o IH]; intros k v H; simpl in H; [discriminate|].
  destruct (Ascii.eqb_spec c "="%char) as [->|Hc].
  - injection H as <- <-. auto.
  - destruct (split_eq_once o) as [[a b]|] eqn:E; [|discriminate].
    injection H as <- <-. destruct (IH a b eq_refl) as [-> Ha].
    split; [reflexivity|].
    change (has_char "="%char (String c a))
      with (Ascii.eqb "="%char c || has_char "="%char a).
    rewrite Ha. destruct (Ascii.eqb_spec "="%char c); [congruence|reflexivity].
Qed.

Lemma split_eq_once_none (o : string) :
  split_eq_once o = None <-> has_char "="%char o = false.
Proof.
  induction o as [|c o IH]; cbn [split_eq_once has_char]; [tauto|].
  destruct (Ascii.eqb_spec c "="%char) as [->|Hc].
  - rewrite Ascii.eqb_refl. simpl. split; discriminate.
  - destruct (Ascii.eqb_spec "="%char c); [congruence|]. cbn [orb].
    rewrite <- IH. destruct (split_eq_once o) as [[a b]|]; split; congruence.
Qed.

Lemma overrides_fold (ovs : list string) :
  forall out ws,
  fold_left overrides_step ovs (out, ws)
  = (fold_left apply_override ovs out,
     ws ++ map NotKeyValue (filter (fun o => negb (has_char "="%char o)) ovs)).
Proof.
  induction ovs as [|o ovs IH]; intros out ws; simpl.
  - rewrite app_nil_r. reflexivity.
  - unfold apply_override at 2.
    destruct (split_eq_once o) as [[k v]|] eqn:E.
    + assert (Hh : has_char "="%char o = true).
      { destruct (has_char "="%char o) eqn:H; [reflexivity|].
        apply split_eq_once_none in H. congruence. }
      rewrite Hh. simpl. rewrite IH. reflexivity.
    + apply split_eq_once_none in E as Hh. rewrite Hh. simpl.
      rewrite IH, <- app_assoc. reflexivity.
Qed.

Lemma apply_override_nodup (ovs : list string) :
  forall d, NoDup (map fst d) -> NoDup (map fst (fold_left apply_override ovs d)).
Proof.
  induction ovs as [|o ovs IH]; intros d H; simpl; [exact H|].
  apply IH. unfold apply_override.
  destruct (split_eq_once o) as [[k v]|]; [apply dict_set_nodup|]; exact H.
Qed.

(** [config.update(overrides_dict)] is the same as applying the overrides
    one after the other to [config]. *)
Lemma update_with_overrides (config : dict string) (ovs : list string) :
  dict_update config (fold_left apply_override ovs [])
  = fold_left apply_override ovs config.
Proof.
  induction ovs as [|o ovs IH] using rev_ind; [reflexivity|].
  rewrite !fold_left_app. simpl. unfold apply_override at 1 3.
  destruct (split_eq_once o) as [[k v]|]; [|exact IH].
  rewrite dict_update_set.
  - rewrite IH. reflexivity.
  - apply apply_override_nodup. constructor.
Qed.

(** ** Index engine: indices in range *)

Lemma nth_product_wrap {A : Type} (lists : list (list A)) (i : Z) :
  - count_product lists <= i < 0 ->
  nth_product i lists = nth_product (i + count_product lists) lists.
Proof.
  intros Hi. rewrite count_product_zprod in *.
  unfold nth_product. cbv zeta.
  destruct (map zlen (rev lists)) as [|l0 ls] eqn:Hm; [reflexivity|].
  rewrite (nth_product_total l0 ls lists Hm).
  rewrite (proj2 (Z.ltb_lt i 0)) by lia.
  rewrite (proj2 (Z.ltb_ge (i + zprod lists) 0)) by lia.
  reflexivity.
Qed.

Lemma nth_product_ok {A : Type} (lists : list (list A)) (i : Z) :
  - count_product lists <= i < count_product lists ->
  exists t, nth_product i lists = Ok t.
Proof.
  intros Hi. destruct (Z.ltb_spec i 0) as [Hneg|Hpos].
  - rewrite nth_product_wrap by lia.
    destruct (nth_product_in_range lists (i + count_product lists))
      as [t [_ Ht]]; [lia|].
    eauto.
  - destruct (nth_product_in_range lists i) as [t [_ Ht]]; [lia|]. eauto.
Qed.

Lemma zprod_empty_member {A : Type} (lists : list (list A)) :
  In [] lists -> zprod lists = 0.
Proof.
  induction lists as [|l ls IH]; [simpl; tauto|].
  intros [Heq|Hin].
  - subst l. reflexivity.
  - change (zprod (l :: ls)) with (zlen l * zprod ls). rewrite IH by exact Hin. lia.
Qed.

(** ** Templates *)

Lemma expand_template_ext (f g : string -> option string) (ps : list tpiece) :
  (forall n, f n = g n) -> expand_template f ps = expand_template g ps.
Proof.
  intros H. induction ps as [|[s| | |n] ps IH]; simpl; try rewrite IH; try reflexivity.
  rewrite H. reflexivity.
Qed.

Lemma get_array_argument_expand format_field (toml : list (string * pyval))
    (ps : list tpiece) :
  wf_template ps = true ->
  fst (get_array_argument format_field (render_template ps) toml)
  = expand_template
      (fun n => if String.eqb n "count"
                then Some (z_str (get_count (fst (read_paramfile toml)) - 1))
                else None) ps.
Proof.
  intros Hwf. unfold get_array_argument.
  destruct (read_paramfile toml) as [params ws]. simpl.
  unfold format_kwargs. rewrite format_with_template by exact Hwf.
  apply expand_template_ext. intros n. simpl.
  destruct (String.eqb n "count"); reflexivity.
Qed.


(* ================================================================== *)
(** * Claims about the index engine *)

(** C1: [nth_product] is the mixed-radix decoding of the source (reverse
    the lists, [index % length] then [index //= length], reverse back);
    enumerating it for [i = 0 .. count_product lists - 1] reproduces the
    cartesian product with the first list most significant, and
    [nth_product(8, [[0,1]]*4) = (1,0,0,0)]. *)
Theorem nth_product_enumerates_product :
  forall (A : Type) (lists : list (list A)),
    map (fun i => nth_product (Z.of_nat i) lists)
        (seq 0 (Z.to_nat (count_product lists)))
    = map Ok (lex_product lists)
  /\ nth_product 8 [[0; 1]; [0; 1]; [0; 1]; [0; 1]] = Ok [1; 0; 0; 0].
Proof.
  intros A lists. split; [|reflexivity].
  rewrite count_product_lex_length.
  apply map_seq_nth_error. intros i x Hx.
  assert (Hi : 0 <= Z.of_nat i < count_product lists).
  { assert (Hlt : (i < List.length (lex_product lists))%nat) by (apply nth_error_Some; congruence).
    rewrite <- (Z2Nat.id (count_product lists)), count_product_lex_length.
    - lia.
    - rewrite count_product_zprod. apply zprod_nonneg. }
  destruct (nth_product_in_range lists (Z.of_nat i) Hi) as [t [Ht Hd]].
  rewrite Nat2Z.id, Hx in Ht. injection Ht as ->. exact Hd.
Qed.

(** C2 (the divergence): with no lists, [nth_product] returns the empty
    tuple for every index, also for indices outside [-1, 1), since the
    early [return tuple()] comes before the range check. *)
Theorem nth_product_no_lists_any_index :
  forall (A : Type) (index : Z), @nth_product A index [] = Ok [].
Proof. reflexivity. Qed.

(** C3: a negative index [i] with [-total <= i < 0] decodes like
    [i + total]. *)
Theorem nth_product_negative_wraps :
  forall (A : Type) (lists : list (list A)) (i : Z),
    - count_product lists <= i < 0 ->
    nth_product i lists = nth_product (i + count_product lists) lists.
Proof. intros A lists i Hi. apply nth_product_wrap. exact Hi. Qed.

(** Witness of C3: for [[1,2,5], [a,c], [xxx]] (count 6), index [-1]
    decodes like index [5], to [(5, c, xxx)]. *)
Lemma nth_product_negative_wraps_witness :
  - count_product [[1; 2; 5]; [10; 30]; [7]] <= -1 < 0
  /\ nth_product (-1) [[1; 2; 5]; [10; 30]; [7]]
     = nth_product (-1 + count_product [[1; 2; 5]; [10; 30]; [7]])
         [[1; 2; 5]; [10; 30]; [7]]
  /\ nth_product (-1) [[1; 2; 5]; [10; 30]; [7]] = Ok [5; 30; 7].
Proof.
  assert (Hr : - count_product [[1; 2; 5]; [10; 30]; [7]] <= -1 < 0)
    by (change (count_product [[1; 2; 5]; [10; 30]; [7]]) with 6; lia).
  split; [exact Hr|].
  split; [exact (nth_product_negative_wraps Z [[1; 2; 5]; [10; 30]; [7]] (-1) Hr)|].
  vm_compute. reflexivity.
Defined.

(** C4 (the divergence): [1] lies outside [[-1, 1)] (the range for the
    empty list of lists, whose count is 1), yet [nth_product(1, [])]
    returns the empty tuple instead of raising [IndexError]. *)
Theorem nth_product_no_lists_out_of_range_no_error :
  ~ (- count_product (@nil (list Z)) <= 1 < count_product (@nil (list Z)))
  /\ @nth_product Z 1 [] = Ok [].
Proof.
  split; [|reflexivity].
  change (count_product (@nil (list Z))) with 1. lia.
Qed.

(** C5: [count_product] is total, [count_product([]) = 1], and in
    general it is the product of the lengths. *)
Theorem count_product_is_product_of_lengths :
  forall (A : Type) (lists : list (list A)),
    count_product (@nil (list A)) = 1
    /\ count_product lists
       = fold_right (fun l acc => Z.of_nat (List.length l) * acc) 1 lists.
Proof.
  intros A lists. split; [reflexivity|].
  rewrite count_product_zprod. reflexivity.
Qed.

(* ================================================================== *)
(** * Claims about command substitution *)

(** C6 (amended): for an index in [[-total, total)], a parameter set
    with distinct names, and a template made of brace-free text, the
    escapes [{{]/[}}] and bare [{name}] fields, [substitute_nth] decodes
    the combination [vals] of the index and returns the template with
    [{{]/[}}] turned into single braces and each [{name}] replaced by
    [str] of the value of [name] in [vals]; the first field whose name is
    not a parameter raises [KeyError name]. *)
Theorem substitute_nth_well_formed_template :
  forall (V : Type) (str_of : V -> string) format_field (nth : Z)
         (params : dict (list V)) (ps : list tpiece),
    NoDup (map fst params) ->
    - get_count params <= nth < get_count params ->
    wf_template ps = true ->
    exists vals,
      nth_product nth (map snd params) = Ok vals /\
      substitute_nth str_of format_field nth params (render_template ps)
      = expand_template
          (fun n => option_map str_of (dict_get (combine (map fst params) vals) n))
          ps.
Proof.
  intros V str_of format_field nth params ps Hnd Hi Hwf.
  unfold get_count in Hi.
  destruct (nth_product_ok (map snd params) nth Hi) as [vals Hv].
  exists vals. split; [exact Hv|].
  unfold substitute_nth. rewrite Hv. cbn [res_bind].
  rewrite dict_from_items_nodup by (apply nodup_combine; exact Hnd).
  unfold format_map. apply format_with_template. exact Hwf.
Qed.

Lemma fixture_names_nodup :
  NoDup (map fst (fst (read_paramfile params_toml))).
Proof.
  vm_compute.
  repeat constructor; simpl; intuition discriminate.
Qed.

(** Witness of C6: the two substitution tests of the repository, index
    687 (imputation Mean, holdout_set 1, val_set 3, repeat 7) and index
    370 with an undeclared placeholder. *)
Lemma substitute_nth_well_formed_template_witness :
  NoDup (map fst (fst (read_paramfile params_toml)))
  /\ - get_count (fst (read_paramfile params_toml)) <= 687
       < get_count (fst (read_paramfile params_toml))
  /\ wf_template command_pieces = true
  /\ substitute_nth py_str no_field_spec 687 (fst (read_paramfile params_toml))
       (render_template command_pieces)
     = Ok "python3 myscript.py --dataset=SYNTHETIC Mean 1 --val=3 --repeat=7"%string
  /\ substitute_nth py_str no_field_spec 370 (fst (read_paramfile params_toml))
       (render_template bad_command_pieces)
     = Raise (KeyError "unknown").
Proof.
  assert (Hc : get_count (fst (read_paramfile params_toml)) = 900)
    by (vm_compute; reflexivity).
  assert (Hr1 : - get_count (fst (read_paramfile params_toml)) <= 687
                < get_count (fst (read_paramfile params_toml))).
  { rewrite Hc. lia. }
  assert (Hr2 : - get_count (fst (read_paramfile params_toml)) <= 370
                < get_count (fst (read_paramfile params_toml))).
  { rewrite Hc. lia. }
  assert (Hw1 : wf_template command_pieces = true) by reflexivity.
  assert (Hw2 : wf_template bad_command_pieces = true) by reflexivity.
  split; [exact fixture_names_nodup|].
  split; [exact Hr1|]. split; [exact Hw1|].
  destruct (substitute_nth_well_formed_template pyval py_str no_field_spec 687
              (fst (read_paramfile params_toml)) command_pieces
              fixture_names_nodup Hr1 Hw1) as [vals1 [Hv1 Hs1]].
  destruct (substitute_nth_well_formed_template pyval py_str no_field_spec 370
              (fst (read_paramfile params_toml)) bad_command_pieces
              fixture_names_nodup Hr2 Hw2) as [vals2 [Hv2 Hs2]].
  vm_compute in Hv1, Hv2.
  injection Hv1 as <-. injection Hv2 as <-.
  rewrite Hs1, Hs2. split; vm_compute; reflexivity.
Defined.

(** C6 counterexample: a template with a lone [}] and no placeholder at
    all is not returned unchanged: [format_map] raises [ValueError]. *)
Lemma substitute_nth_lone_brace_raises :
  substitute_nth py_str no_field_spec 0 (fst (read_paramfile params_toml))
    "}"%string = Raise single_close
  /\ substitute_nth py_str no_field_spec 0 (fst (read_paramfile params_toml))
    "}"%string <> Ok "}"%string.
Proof. split; [vm_compute; reflexivity | vm_compute; discriminate]. Qed.

(* ================================================================== *)
(** * Claims about parameter files and the sbatch configuration *)

(** C7: [validate_param_dict] keeps exactly the entries whose key is a
    string and whose value is a list, in input order; it emits one
    warning per other entry, in input order ([InvalidKey] when the key is
    not a string, [InvalidValue] when it is but the value is not a list);
    it returns a pair in every case, raising nothing.  The mapping's
    accepted names are distinct, as the keys of a mapping are. *)
Theorem validate_param_dict_filters :
  forall (K V : Type) (as_str : K -> option string)
         (as_list : V -> option (list V)) (dict_lists : list (K * V)),
    NoDup (map fst (flat_map (fun kv =>
      match as_str (fst kv), as_list (snd kv) with
      | Some k, Some l => [(k, l)]
      | _, _ => []
      end) dict_lists)) ->
    validate_param_dict as_str as_list dict_lists =
    (flat_map (fun kv =>
       match as_str (fst kv), as_list (snd kv) with
       | Some k, Some l => [(k, l)]
       | _, _ => []
       end) dict_lists,
     flat_map (fun kv =>
       match as_str (fst kv) with
       | None => [InvalidKey (fst kv) (snd kv)]
       | Some _ =>
           match as_list (snd kv) with
           | None => [InvalidValue (fst kv) (snd kv)]
           | Some _ => []
           end
       end) dict_lists).
Proof.
  intros K V as_str as_list dict_lists Hnd.
  unfold validate_param_dict.
  apply (validate_fold as_str as_list dict_lists [] []). exact Hnd.
Qed.

(** Witness of C7: [testfiles/paramsbad.toml] keeps its four list
    entries and warns about the three integer entries. *)
Lemma validate_param_dict_filters_witness :
  NoDup (map fst (flat_map (fun kv =>
      match Some (fst kv), pyval_as_list (snd kv) with
      | Some k, Some l => [(k, l)]
      | _, _ => []
      end) paramsbad_toml))
  /\ read_paramfile paramsbad_toml =
     ([("dataset", [PStr "SYNTHETIC"]);
       ("imputation", [PStr "MICE"; PStr "GAIN"; PStr "Mean"]);
       ("train_percentage", [PFloat "0.25"; PFloat "0.5"]);
       ("test_percentage", [PFloat "0.5"])]%string,
      [InvalidValue "n_holdout_sets"%string (PInt 3);
       InvalidValue "n_val_sets"%string (PInt 5);
       InvalidValue "n_repeats"%string (PInt 10)]).
Proof.
  assert (Hnd : NoDup (map fst (flat_map (fun kv =>
      match Some (fst kv), pyval_as_list (snd kv) with
      | Some k, Some l => [(k, l)]
      | _, _ => []
      end) paramsbad_toml))).
  { vm_compute. repeat constructor; simpl; intuition discriminate. }
  split; [exact Hnd|].
  unfold read_paramfile.
  rewrite (validate_param_dict_filters string pyval Some pyval_as_list
             paramsbad_toml Hnd).
  vm_compute. reflexivity.
Defined.

(** C8: [get_sbatch_config] with overrides equals applying the overrides
    one by one to the stringified base mapping: an override with an [=]
    is split at its first [=] into [k] and [v] and sets [k] to [v] (a
    key already present keeps its position and gets the new value, a new
    key goes last, the other entries are unchanged); an override without
    [=] is skipped and gives one warning. *)
Theorem get_sbatch_config_merges_overrides :
  forall (V : Type) (str_of : V -> string) (config_base : list (string * V))
         (overrides : list string),
    get_sbatch_config str_of config_base (Some overrides)
    = (fold_left apply_override overrides
         (dict_from_items (map (fun kv => (fst kv, str_of (snd kv))) config_base)),
       map NotKeyValue (filter (fun o => negb (has_char "="%char o)) overrides))
    /\ (forall o k v, split_eq_once o = Some (k, v) ->
          o = (k ++ String "="%char v)%string /\ has_char "="%char k = false)
    /\ (forall o, split_eq_once o = None <-> has_char "="%char o = false)
    /\ (forall (d : dict string) k v,
          ~ In k (map fst d) -> dict_set d k v = d ++ [(k, v)])
    /\ (forall (d1 d2 : dict string) k v0 v,
          ~ In k (map fst d1) ->
          dict_set (d1 ++ (k, v0) :: d2) k v = d1 ++ (k, v) :: d2).
Proof.
  intros V str_of config_base overrides.
  split; [|split; [|split; [|split]]].
  - unfold get_sbatch_config, overrides_to_dict.
    rewrite overrides_fold. simpl.
    rewrite update_with_overrides. reflexivity.
  - apply split_eq_once_some.
  - apply split_eq_once_none.
  - apply dict_set_absent.
  - apply dict_set_present.
Qed.

(** [test_get_sbatch_config]. *)
Lemma get_sbatch_config_fixture :
  get_sbatch_config py_str sbatch_config_toml
    (Some ["z=0"; "A=OTHER-ACCOUNT"]%string)
  = ([("p", "mynode"); ("A", "OTHER-ACCOUNT"); ("N", "2");
      ("time", "15:00:00"); ("o", "messages_%a.out"); ("z", "0")]%string, []).
Proof. vm_compute. reflexivity. Qed.

(* ================================================================== *)
(** * Claims about the array argument *)

(** C9 (amended): for a template made of brace-free text, the escapes
    [{{]/[}}] and bare [{name}] fields, the array argument is the
    template with [{{]/[}}] turned into single braces and each [{count}]
    replaced by [str] of the parameter count minus one; any other field
    name raises [KeyError]. *)
Theorem get_array_argument_formats_count :
  forall format_field (toml : list (string * pyval)) (ps : list tpiece),
    wf_template ps = true ->
    fst (get_array_argument format_field (render_template ps) toml)
    = expand_template
        (fun n => if String.eqb n "count"
                  then Some (z_str (get_count (fst (read_paramfile toml)) - 1))
                  else None) ps.
Proof.
  intros format_field toml ps Hwf. apply get_array_argument_expand. exact Hwf.
Qed.

(** Witness of C9: [testfiles/params.toml] has 900 combinations;
    ["0-{count}"] gives ["0-899"] and ["0-{count}%10"] gives
    ["0-899%10"]. *)
Lemma get_array_argument_formats_count_witness :
  get_count (fst (read_paramfile params_toml)) = 900
  /\ render_template [TLit "0-"; TField "count"]%string = "0-{count}"%string
  /\ fst (get_array_argument (@no_field_spec Z) "0-{count}" params_toml)
     = Ok "0-899"%string
  /\ render_template [TLit "0-"; TField "count"; TLit "%10"]%string
     = "0-{count}%10"%string
  /\ fst (get_array_argument (@no_field_spec Z) "0-{count}%10" params_toml)
     = Ok "0-899%10"%string.
Proof.
  split; [vm_compute; reflexivity|].
  split; [reflexivity|].
  split.
  { change "0-{count}"%string
      with (render_template [TLit "0-"; TField "count"]%string).
    rewrite (get_array_argument_formats_count (@no_field_spec Z) params_toml
               [TLit "0-"; TField "count"]%string eq_refl).
    vm_compute. reflexivity. }
  split; [reflexivity|].
  change "0-{count}%10"%string
    with (render_template [TLit "0-"; TField "count"; TLit "%10"]%string).
  rewrite (get_array_argument_formats_count (@no_field_spec Z) params_toml
             [TLit "0-"; TField "count"; TLit "%10"]%string eq_refl).
  vm_compute. reflexivity.
Defined.

(** C9 counterexample: the template is formatted, not searched and
    replaced: ["0-{{count}}"] gives ["0-{count}"] (not ["0-{899}"]) and
    ["0-{count}}"] raises [ValueError] (not ["0-899}"]). *)
Lemma get_array_argument_not_textual :
  fst (get_array_argument (@no_field_spec Z) "0-{{count}}" params_toml)
  = Ok "0-{count}"%string
  /\ fst (get_array_argument (@no_field_spec Z) "0-{count}}" params_toml)
  = Raise single_close.
Proof. split; vm_compute; reflexivity. Qed.

(** C10: when some value list of the validated parameters is empty, the
    count is 0, and the array argument is the template formatted with
    [count = -1], without error: ["0-{count}"] gives ["0--1"]. *)
Theorem get_array_argument_empty_value_list :
  forall format_field (toml : list (string * pyval)),
    In [] (map snd (fst (read_paramfile toml))) ->
    get_count (fst (read_paramfile toml)) = 0
    /\ (forall ps, wf_template ps = true ->
          fst (get_array_argument format_field (render_template ps) toml)
          = expand_template
              (fun n => if String.eqb n "count" then Some "-1"%string else None) ps)
    /\ fst (get_array_argument format_field "0-{count}" toml) = Ok "0--1"%string.
Proof.
  intros format_field toml Hin.
  assert (H0 : get_count (fst (read_paramfile toml)) = 0).
  { unfold get_count. rewrite count_product_zprod.
    apply zprod_empty_member. exact Hin. }
  split; [exact H0|].
  assert (Hps : forall ps, wf_template ps = true ->
    fst (get_array_argument format_field (render_template ps) toml)
    = expand_template
        (fun n => if String.eqb n "count" then Some "-1"%string else None) ps).
  { intros ps Hwf. rewrite get_array_argument_expand by exact Hwf.
    rewrite H0. reflexivity. }
  split; [exact Hps|].
  change "0-{count}"%string
    with (render_template [TLit "0-"; TField "count"]%string).
  rewrite Hps by reflexivity. reflexivity.
Qed.

(** Witness of C10: a parameter file with an empty list. *)
Lemma get_array_argument_empty_value_list_witness :
  In [] (map snd (fst (read_paramfile
    [("a", PList [PInt 1; PInt 2]); ("b", PList [])]%string)))
  /\ fst (get_array_argument (@no_field_spec Z) "0-{count}"
       [("a", PList [PInt 1; PInt 2]); ("b", PList [])]%string)
     = Ok "0--1"%string.
Proof.
  assert (Hin : In [] (map snd (fst (read_paramfile
    [("a", PList [PInt 1; PInt 2]); ("b", PList [])]%string)))).
  { simpl. auto. }
  split; [exact Hin|].
  exact (proj2 (proj2 (get_array_argument_empty_value_list (@no_field_spec Z)
    [("a", PList [PInt 1; PInt 2]); ("b", PList [])]%string Hin))).
Defined.

(** Witness of [nth_product_raises_iff]: with [[1,2,5], [a,c], [xxx]]
    (count 6), index [6] raises [IndexError] and lies outside [[-6, 6)]. *)
Lemma nth_product_raises_iff_witness :
  [[1; 2; 5]; [10; 30]; [7]] <> []
  /\ (nth_product 6 [[1; 2; 5]; [10; 30]; [7]] = Raise IndexError <->
      ~ (- count_product [[1; 2; 5]; [10; 30]; [7]] <= 6
         < count_product [[1; 2; 5]; [10; 30]; [7]]))
  /\ nth_product 6 [[1; 2; 5]; [10; 30]; [7]] = Raise IndexError.
Proof.
  assert (Hne : [[1; 2; 5]; [10; 30]; [7]] <> []) by discriminate.
  split; [exact Hne|].
  split; [exact (nth_product_raises_iff [[1; 2; 5]; [10; 30]; [7]] 6 Hne)|].
  vm_compute. reflexivity.
Defined.

(* ================================================================== *)
(** * Further properties of the code *)

(** ** The index engine as a bijection *)

Section ProductFacts.

Context {A : Type}.

Lemma lex_product_in (lists : list (list A)) (t : list A) :
  In t (lex_product lists) <-> Forall2 (fun x l => In x l) t lists.
Proof.
  revert t. induction lists as [|l ls IH]; intros t; simpl.
  - split.
    + intros [<-|[]]. constructor.
    + intros H. inversion H. auto.
  - rewrite in_flat_map. split.
    + intros [x [Hx Hin]]. apply in_map_iff in Hin.
      destruct Hin as [t' [<- Ht']]. constructor; [exact Hx|].
      apply IH. exact Ht'.
    + intros H. inversion H as [|x l' t' ls' Hx Ht']; subst.
      exists x. split; [exact Hx|]. apply in_map. apply IH. exact Ht'.
Qed.

Lemma lex_product_nodup (lists : list (list A)) :
  Forall (fun l => NoDup l) lists -> NoDup (lex_product lists).
Proof.
  induction lists as [|l ls IH]; intros Hnd; simpl.
  - constructor; [simpl; tauto|constructor].
  - inversion Hnd as [|l' ls' Hl Hls]; subst.
    specialize (IH Hls). clear Hnd Hls.
    induction l as [|x l IHl]; simpl; [constructor|].
    inversion Hl as [|x' l' Hx Hl']; subst.
    apply NoDup_app.
    + apply NoDup_map_NoDup_ForallPairs; [|exact IH].
      intros a b _ _ Hab. injection Hab. auto.
    + apply IHl. exact Hl'.
    + intros t Ht Ht2.
      apply in_map_iff in Ht. destruct Ht as [u [<- _]].
      apply in_flat_map in Ht2. destruct Ht2 as [y [Hy Hin]].
      apply in_map_iff in Hin. destruct Hin as [w [Hw _]].
      injection Hw as Hyx _. subst y. contradiction.
Qed.

Lemma count_product_nonneg (lists : list (list A)) : 0 <= count_product lists.
Proof. rewrite count_product_zprod. apply zprod_nonneg. Qed.

End ProductFacts.

(** [nth_product] over the indices [0 .. count_product lists - 1]
    reaches exactly the tuples that pick one element from each list, in
    order. *)
Theorem nth_product_reaches_every_combination {A : Type}
    (lists : list (list A)) (t : list A) :
  Forall2 (fun x l => In x l) t lists <->
  exists i, 0 <= i < count_product lists /\ nth_product i lists = Ok t.
Proof.
  rewrite <- lex_product_in. split.
  - intros Hin. apply In_nth_error in Hin. destruct Hin as [n Hn].
    assert (Hlt : (n < List.length (lex_product lists))%nat)
      by (apply nth_error_Some; congruence).
    rewrite <- count_product_lex_length in Hlt.
    assert (Hi : 0 <= Z.of_nat n < count_product lists).
    { pose proof (count_product_nonneg lists). lia. }
    exists (Z.of_nat n). split; [exact Hi|].
    destruct (nth_product_in_range lists (Z.of_nat n) Hi) as [t' [Ht' Hd]].
    rewrite Nat2Z.id, Hn in Ht'. injection Ht' as ->. exact Hd.
  - intros [i [Hi Hd]].
    destruct (nth_product_in_range lists i Hi) as [t' [Ht' Hd']].
    rewrite Hd in Hd'. injection Hd' as <-.
    apply nth_error_In in Ht'. exact Ht'.
Qed.

(** When no list repeats an element, different indices in
    [[0, count_product lists)] decode to different tuples. *)
Theorem nth_product_injective {A : Type} (lists : list (list A)) (i j : Z) :
  Forall (fun l => NoDup l) lists ->
  0 <= i < count_product lists ->
  0 <= j < count_product lists ->
  nth_product i lists = nth_product j lists -> i = j.
Proof.
  intros Hnd Hi Hj Heq.
  destruct (nth_product_in_range lists i Hi) as [ti [Hti Hdi]].
  destruct (nth_product_in_range lists j Hj) as [tj [Htj Hdj]].
  rewrite Hdi, Hdj in Heq. injection Heq as <-.
  assert (Hn : Z.to_nat i = Z.to_nat j).
  { apply (proj1 (NoDup_nth_error _) (lex_product_nodup lists Hnd)).
    - apply nth_error_Some. congruence.
    - congruence. }
  lia.
Qed.

(** Witness: with [[1,2,5], [10,30], [7]], the indices [2] and [2]. *)
Lemma nth_product_injective_witness :
  Forall (fun l => NoDup l) [[1; 2; 5]; [10; 30]; [7]]
  /\ 0 <= 2 < count_product [[1; 2; 5]; [10; 30]; [7]]
  /\ nth_product 2 [[1; 2; 5]; [10; 30]; [7]] = Ok [2; 10; 7]
  /\ 2 = 2.
Proof.
  assert (Hnd : Forall (fun l => NoDup l) [[1; 2; 5]; [10; 30]; [7]]).
  { repeat constructor; simpl; intuition discriminate. }
  assert (Hr : 0 <= 2 < count_product [[1; 2; 5]; [10; 30]; [7]])
    by (change (count_product [[1; 2; 5]; [10; 30]; [7]]) with 6; lia).
  split; [exact Hnd|]. split; [exact Hr|]. split; [vm_compute; reflexivity|].
  exact (nth_product_injective [[1; 2; 5]; [10; 30]; [7]] 2 2 Hnd Hr Hr eq_refl).
Defined.

(** [count_product] is never negative, and it is [0] exactly when one
    of the lists is empty. *)
Theorem count_product_zero_iff {A : Type} (lists : list (list A)) :
  0 <= count_product lists /\ (count_product lists = 0 <-> In [] lists).
Proof.
  split; [apply count_product_nonneg|].
  rewrite count_product_zprod. split.
  - induction lists as [|l ls IH]; simpl; [discriminate|].
    intros H. change (zprod (l :: ls)) with (zlen l * zprod ls) in H.
    apply Z.mul_eq_0 in H. destruct H as [H|H].
    + left. unfold zlen in H. destruct l; [reflexivity|simpl in H; lia].
    + right. apply IH. exact H.
  - apply zprod_empty_member.
Qed.

(** ** Dictionary lookups after updates *)

Lemma dict_get_set {V : Type} (d : dict V) (k k' : string) (v : V) :
  dict_get (dict_set d k v) k' = if String.eqb k' k then Some v else dict_get d k'.
Proof.
  induction d as [|[k1 v1] d IH]; simpl; [reflexivity|].
  destruct (String.eqb_spec k k1) as [->|Hne]; simpl.
  - destruct (String.eqb k' k1); reflexivity.
  - rewrite IH.
    destruct (String.eqb_spec k' k); destruct (String.eqb_spec k' k1);
      congruence.
Qed.

Lemma apply_overrides_untouched (ovs : list string) (k : string) :
  (forall o v', In o ovs -> split_eq_once o <> Some (k, v')) ->
  forall D, dict_get (fold_left apply_override ovs D) k = dict_get D k.
Proof.
  induction ovs as [|o ovs IH]; intros H D; simpl; [reflexivity|].
  rewrite IH by (intros o' v' Hin; apply H; right; exact Hin).
  unfold apply_override.
  destruct (split_eq_once o) as [[k0 v0]|] eqn:Ho; [|reflexivity].
  rewrite dict_get_set.
  destruct (String.eqb_spec k k0) as [->|]; [|reflexivity].
  exfalso. apply (H o v0); [left; reflexivity|exact Ho].
Qed.

Lemma get_sbatch_config_fold {V : Type} (str_of : V -> string)
    (base : list (string * V)) (ovs : list string) :
  fst (get_sbatch_config str_of base (Some ovs))
  = fold_left apply_override ovs (fst (get_sbatch_config str_of base None)).
Proof.
  unfold get_sbatch_config, overrides_to_dict.
  rewrite overrides_fold. simpl. apply update_with_overrides.
Qed.

(** ** The sbatch configuration *)

(** The last [--sbatch] override with key [k] gives the value of [k]. *)
Theorem get_sbatch_config_last_override_wins {V : Type} (str_of : V -> string)
    (base : list (string * V)) (pre post : list string) (o k v : string) :
  split_eq_once o = Some (k, v) ->
  (forall o' v', In o' post -> split_eq_once o' <> Some (k, v')) ->
  dict_get (fst (get_sbatch_config str_of base (Some (pre ++ o :: post)))) k
  = Some v.
Proof.
  intros Ho Hpost.
  rewrite get_sbatch_config_fold, fold_left_app. simpl.
  rewrite (apply_overrides_untouched post k Hpost).
  unfold apply_override at 1. rewrite Ho, dict_get_set, String.eqb_refl.
  reflexivity.
Qed.

(** Witness: [-A] set twice, then [-p] set; [A] gets the second value. *)
Lemma get_sbatch_config_last_override_wins_witness :
  split_eq_once "A=OTHER" = Some ("A", "OTHER")%string
  /\ (forall o' v', In o' ["p=x"%string] -> split_eq_once o' <> Some ("A"%string, v'))
  /\ dict_get (fst (get_sbatch_config py_str sbatch_config_toml
       (Some (["A=FIRST"%string; "z=0"%string] ++ "A=OTHER"%string :: ["p=x"%string])))) "A"
     = Some "OTHER"%string.
Proof.
  assert (Ho : split_eq_once "A=OTHER" = Some ("A", "OTHER")%string) by reflexivity.
  assert (Hp : forall o' v', In o' ["p=x"%string] ->
                 split_eq_once o' <> Some ("A"%string, v')).
  { intros o' v' [<-|[]] H. vm_compute in H. injection H. discriminate. }
  split; [exact Ho|]. split; [exact Hp|].
  exact (get_sbatch_config_last_override_wins py_str sbatch_config_toml
           ["A=FIRST"; "z=0"]%string ["p=x"%string] "A=OTHER" "A" "OTHER" Ho Hp).
Defined.

(** A key that no override sets keeps the value it has without
    overrides, [str] of its value in the configuration file, or stays
    absent. *)
Theorem get_sbatch_config_keeps_other_keys {V : Type} (str_of : V -> string)
    (base : list (string * V)) (ovs : list string) (k : string) :
  (forall o v', In o ovs -> split_eq_once o <> Some (k, v')) ->
  dict_get (fst (get_sbatch_config str_of base (Some ovs))) k
  = dict_get (fst (get_sbatch_config str_of base None)) k.
Proof.
  intros H. rewrite get_sbatch_config_fold.
  apply apply_overrides_untouched. exact H.
Qed.

(** Witness: the overrides of [test_get_sbatch_config] leave [time]. *)
Lemma get_sbatch_config_keeps_other_keys_witness :
  (forall o v', In o ["z=0"; "A=OTHER-ACCOUNT"]%string ->
     split_eq_once o <> Some ("time"%string, v'))
  /\ dict_get (fst (get_sbatch_config py_str sbatch_config_toml
       (Some ["z=0"; "A=OTHER-ACCOUNT"]%string))) "time"
     = Some "15:00:00"%string.
Proof.
  assert (H : forall o v', In o ["z=0"; "A=OTHER-ACCOUNT"]%string ->
     split_eq_once o <> Some ("time"%string, v')).
  { intros o v' [<-|[<-|[]]] Hs; vm_compute in Hs; injection Hs; discriminate. }
  split; [exact H|].
  rewrite (get_sbatch_config_keeps_other_keys py_str sbatch_config_toml
             ["z=0"; "A=OTHER-ACCOUNT"]%string "time" H).
  vm_compute. reflexivity.
Defined.

(** ** The header block and the batch file *)

Lemma has_char_app (c : ascii) (s1 s2 : string) :
  has_char c (s1 ++ s2) = has_char c s1 || has_char c s2.
Proof.
  induction s1 as [|c' s1 IH]; simpl; [reflexivity|].
  rewrite IH. apply orb_assoc.
Qed.

Lemma split_nl_line (a b : string) :
  has_char (ascii_of_nat 10) a = false ->
  split_nl (a ++ nl ++ b) = a :: split_nl b.
Proof.
  induction a as [|c a IH]; intros H; [reflexivity|].
  cbn [has_char] in H. apply orb_false_iff in H. destruct H as [Hc Ha].
  cbn [append split_nl]. rewrite Ascii.eqb_sym, Hc, IH by exact Ha.
  reflexivity.
Qed.

Lemma make_sbatch_headers_fold (config : dict string) :
  forall acc,
  fold_left (fun (outstr : string) (kv : string * string) =>
    let (key, val) := kv in
    if Nat.eqb (String.length key) 1%nat
    then (outstr ++ "#SBATCH -" ++ key ++ " " ++ val ++ nl)%string
    else (outstr ++ "#SBATCH --" ++ key ++ "=" ++ val ++ nl)%string) config acc
  = (acc ++ fold_right (fun kv a => sbatch_header_text kv ++ nl ++ a) EmptyString config)%string.
Proof.
  induction config as [|[key val] config IH]; intros acc;
    cbn [fold_left fold_right].
  - rewrite str_append_nil. reflexivity.
  - rewrite IH. unfold sbatch_header_text.
    destruct (Nat.eqb (String.length key) 1%nat);
      repeat rewrite str_append_assoc; reflexivity.
Qed.

Lemma sbatch_header_text_no_nl (kv : string * string) :
  has_char (ascii_of_nat 10) (fst kv) = false ->
  has_char (ascii_of_nat 10) (snd kv) = false ->
  has_char (ascii_of_nat 10) (sbatch_header_text kv) = false.
Proof.
  destruct kv as [key val]; cbn [fst snd]; intros Hk Hv.
  unfold sbatch_header_text.
  destruct (Nat.eqb (String.length key) 1%nat);
    repeat rewrite has_char_app; rewrite Hk, Hv; reflexivity.
Qed.

(** When no key or value holds a newline, the header block splits into
    exactly one line per entry, in order: [#SBATCH -k v] for a one
    character key, [#SBATCH --k=v] otherwise, each ended by a newline. *)
Theorem make_sbatch_headers_lines (config : dict string) :
  Forall (fun kv => has_char (ascii_of_nat 10) (fst kv) = false
                    /\ has_char (ascii_of_nat 10) (snd kv) = false) config ->
  split_nl (make_sbatch_headers config)
  = map sbatch_header_text config ++ [EmptyString].
Proof.
  intros H. unfold make_sbatch_headers.
  rewrite make_sbatch_headers_fold. cbn [append].
  induction H as [|kv config [Hk Hv] _ IH]; [reflexivity|].
  cbn [map fold_right app]. rewrite split_nl_line by (apply sbatch_header_text_no_nl; assumption).
  rewrite IH. reflexivity.
Qed.

(** Witness: the configuration of [testfiles/sbatch-config.toml]. *)
Lemma make_sbatch_headers_lines_witness :
  Forall (fun kv => has_char (ascii_of_nat 10) (fst kv) = false
                    /\ has_char (ascii_of_nat 10) (snd kv) = false)
    (fst (get_sbatch_config py_str sbatch_config_toml None))
  /\ split_nl (make_sbatch_headers (fst (get_sbatch_config py_str sbatch_config_toml None)))
     = ["#SBATCH -p mynode"; "#SBATCH -A MY-ACCOUNT"; "#SBATCH -N 2";
        "#SBATCH --time=15:00:00"; "#SBATCH -o messages_%a.out"; ""]%string.
Proof.
  assert (H : Forall (fun kv => has_char (ascii_of_nat 10) (fst kv) = false
                    /\ has_char (ascii_of_nat 10) (snd kv) = false)
    (fst (get_sbatch_config py_str sbatch_config_toml None))).
  { vm_compute. repeat constructor. }
  split; [exact H|].
  rewrite (make_sbatch_headers_lines _ H). vm_compute. reflexivity.
Defined.

Lemma batchfile_text format_field (setup command : option string)
    (paramfile : string) (config : dict string) (pwd slurm_utils_dir : string) :
  make_batchfile_contents format_field setup command paramfile config pwd slurm_utils_dir
  = Ok ("#!/bin/bash" ++ nl ++ make_sbatch_headers config ++ nl ++ nl
        ++ "cd " ++ pwd ++ nl ++ nl
        ++ "command=$(python3 " ++ slurm_utils_dir
        ++ "/slurm_utils.py --nth=$SLURM_ARRAY_TASK_ID "
        ++ "          --paramfile=" ++ paramfile ++ " --command=" ++ dq
        ++ match command with Some c => c | None => "None" end ++ dq ++ ")"
        ++ nl ++ nl ++ match setup with Some s => s | None => "None" end
        ++ nl ++ nl ++ "$command" ++ nl)%string.
Proof. destruct setup, command; reflexivity. Qed.

(** [make_batchfile_contents] never raises: the configuration headers,
    working directory, [slurm_utils.py] directory, parameter file name,
    command and setup go into the fixed script text verbatim (braces in
    them are not formatted again); an absent command or setup is written
    as [None]. *)
Theorem make_batchfile_contents_verbatim format_field (setup command : option string)
    (paramfile : string) (config : dict string) (pwd slurm_utils_dir : string) :
  make_batchfile_contents format_field setup command paramfile config pwd slurm_utils_dir
  = Ok ("#!/bin/bash" ++ nl ++ make_sbatch_headers config ++ nl ++ nl
        ++ "cd " ++ pwd ++ nl ++ nl
        ++ "command=$(python3 " ++ slurm_utils_dir
        ++ "/slurm_utils.py --nth=$SLURM_ARRAY_TASK_ID "
        ++ "          --paramfile=" ++ paramfile ++ " --command=" ++ dq
        ++ match command with Some c => c | None => "None" end ++ dq ++ ")"
        ++ nl ++ nl ++ match setup with Some s => s | None => "None" end
        ++ nl ++ nl ++ "$command" ++ nl)%string.
Proof. apply batchfile_text. Qed.

(** ** Writing the file *)



(** ** The command lines *)







